(** * Verification of the per-client sliding-window rate limiter
      (src/utils/rateLimiter.ts) and its chat-proxy instance (src/api/chat.ts). *)

From Stdlib Require Import ZArith QArith Sorted.
From stdpp Require Import base list gmap strings.

Open Scope Z_scope.

(** ** JavaScript numbers

    The caps of [RateLimitConfig] are JavaScript [number]s. A finite double
    is a rational; the non-finite values are NaN and the two infinities. *)
Inductive number :=
  | Fin (q : Q)
  | NaN
  | PosInf
  | NegInf.

(** [n >= cap] for a count [n] (a non-negative integer) and a JS number,
    following the abstract relational comparison: NaN compares false. *)
Definition js_ge (n : nat) (cap : number) : bool :=
  match cap with
  | Fin q => Qle_bool q (inject_Z (Z.of_nat n))
  | NaN => false
  | PosInf => false
  | NegInf => true
  end.

(** The JS number of a natural literal. *)
Definition js_of_nat (n : nat) : number := Fin (inject_Z (Z.of_nat n)).

(** [x || d] on a number: 0, -0 and NaN are falsy. *)
Definition js_or (x d : number) : number :=
  match x with
  | Fin q => if Qeq_bool q 0 then d else x
  | NaN => d
  | _ => x
  end.

(** ** Configuration and constructor (rateLimiter.ts, lines 1-17) *)

Record RateLimitConfig := {
  requestsPerMinute : number;
  requestsPerHour : number;
  requestsPerDay : number
}.

(** [Partial<RateLimitConfig>]: a missing field is [None]. *)
Record PartialConfig := {
  p_requestsPerMinute : option number;
  p_requestsPerHour : option number;
  p_requestsPerDay : option number
}.

(** [a ?? d]: the default replaces only [undefined]/[null]. *)
Definition nullish (a : option number) (d : number) : number :=
  match a with Some x => x | None => d end.

(** [new RateLimiter(config?)]: the constructor only fills defaults; it
    never throws. [config?.f] is [undefined] when [config] is absent. *)
Definition constructor (config : option PartialConfig) : RateLimitConfig :=
  {| requestsPerMinute :=
       nullish (config ≫= p_requestsPerMinute) (js_of_nat 60);
     requestsPerHour :=
       nullish (config ≫= p_requestsPerHour) (js_of_nat 1000);
     requestsPerDay :=
       nullish (config ≫= p_requestsPerDay) (js_of_nat 5000) |}.

(** ** Request store and [checkLimit] (rateLimiter.ts, lines 8 and 19-61) *)

(** [private requests: Map<string, number[]>]; timestamps are integer
    milliseconds as returned by [Date.now()]. *)
Abbreviation store := (gmap string (list Z)).

Definition minute : Z := 60 * 1000.
Definition hour : Z := 60 * minute.
Definition day : Z := 24 * hour.

(** Line 27: [timestamps.filter(ts => now - ts < day)]. *)
Definition prune (now : Z) (timestamps : list Z) : list Z :=
  filter (fun ts => now - ts < day) timestamps.

(** Lines 29-30: [timestamps.filter(ts => now - ts < w).length]. *)
Definition count_within (w now : Z) (timestamps : list Z) : nat :=
  length (filter (fun ts => now - ts < w) timestamps).

(** The window named in the [console.warn] of a rejection. *)
Inductive window := Minute | Hour | Day.

(** Result of one call: the returned boolean, the warning logged (if any)
    and the store afterwards. *)
Record step_result := mkRes {
  res_allowed : bool;
  res_warn : option window;
  res_store : store
}.

Definition checkLimit (cfg : RateLimitConfig) (requests : store)
    (clientId : string) (now : Z) : step_result :=
  (* line 25: [this.requests.get(clientId) || []] (an array is truthy) *)
  let timestamps := default [] (requests !! clientId) in
  let timestamps := prune now timestamps in
  let lastMinute := count_within minute now timestamps in
  let lastHour := count_within hour now timestamps in
  let lastDay := length timestamps in
  if js_ge lastMinute (requestsPerMinute cfg) then mkRes false (Some Minute) requests
  else if js_ge lastHour (requestsPerHour cfg) then mkRes false (Some Hour) requests
  else if js_ge lastDay (requestsPerDay cfg) then mkRes false (Some Day) requests
  else mkRes true None (<[clientId := timestamps ++ [now]]> requests).

(** A sequence of calls on one shared limiter instance: each call is a
    client id and the instant [Date.now()] returns for it. The body of
    [checkLimit] contains no [await], so each call runs to completion
    before the next one starts. The log records (client, instant, decision). *)
Fixpoint run (cfg : RateLimitConfig) (requests : store)
    (calls : list (string * Z)) : list (string * Z * bool) * store :=
  match calls with
  | [] => ([], requests)
  | (c, now) :: rest =>
      let r := checkLimit cfg requests c now in
      let '(log, st) := run cfg (res_store r) rest in
      ((c, now, res_allowed r) :: log, st)
  end.

Definition decisions (cfg : RateLimitConfig) (requests : store)
    (calls : list (string * Z)) : list bool :=
  map (fun e => e.2) (run cfg requests calls).1.

(** Instants of the admitted calls of client [c] in a log. *)
Definition admitted_times (c : string) (log : list (string * Z * bool)) : list Z :=
  map (fun e => e.1.2) (filter (fun e => e.1.1 = c /\ e.2 = true) log).

Definition cfg_2_10_10 : RateLimitConfig :=
  constructor (Some {| p_requestsPerMinute := Some (js_of_nat 2);
                       p_requestsPerHour := Some (js_of_nat 10);
                       p_requestsPerDay := Some (js_of_nat 10) |}).

Example scenario_A : decisions cfg_2_10_10 ∅ [("A", 1000); ("A", 1000); ("A", 1000)]
                     = [true; true; false].
Proof. vm_compute. reflexivity. Qed.

(** ** The chat-proxy instance (chat.ts, lines 4-8) *)

Section ChatProxy.

(** [Number(s)] on a string (StringToNumber of ECMAScript); it yields NaN
    exactly on strings that are not numeric literals. *)
Variable StringToNumber : string -> number.

(** [Number(process.env.X)]: [Number(undefined)] is NaN. *)
Definition Number (v : option string) : number :=
  match v with Some s => StringToNumber s | None => NaN end.

(** [Number(process.env.X) || d]. *)
Definition env_cap (v : option string) (d : nat) : number :=
  js_or (Number v) (js_of_nat d).

Definition chat_rateLimiter (env : string -> option string) : RateLimitConfig :=
  constructor (Some {|
    p_requestsPerMinute := Some (env_cap (env "RATE_LIMIT_REQUESTS_PER_MINUTE") 15);
    p_requestsPerHour := Some (env_cap (env "RATE_LIMIT_REQUESTS_PER_HOUR") 250);
    p_requestsPerDay := Some (env_cap (env "RATE_LIMIT_REQUESTS_PER_DAY") 500) |}).

(** An environment value that is unset or not a numeric literal. *)
Definition unset_or_non_numeric (v : option string) : Prop :=
  v = None \/ exists s, v = Some s /\ StringToNumber s = NaN.

End ChatProxy.

(** ** Basic facts *)

Definition in_span (t0 t : Z) : Prop := t0 <= t < t0 + minute.

Lemma js_ge_of_nat (n k : nat) : js_ge n (js_of_nat k) = (k <=? n)%nat.
Proof.
  unfold js_ge, js_of_nat.
  apply eq_true_iff_eq. rewrite Qle_bool_iff, Nat.leb_le, <- Zle_Qle. lia.
Qed.

Lemma filter_sublist_mono (P : Z -> Prop) `{!forall x, Decision (P x)}
    (l1 l2 : list Z) :
  l1 `sublist_of` l2 -> filter P l1 `sublist_of` filter P l2.
Proof.
  induction 1 as [|x l1 l2 ? IH|x l1 l2 ? IH]; [done| |];
    rewrite !filter_cons; case_decide; auto using sublist_skip, sublist_cons.
Qed.

Lemma filter_all (P : Z -> Prop) `{!forall x, Decision (P x)} (l : list Z) :
  Forall P l -> filter P l = l.
Proof.
  induction 1 as [|x l ? ? IH]; [done|].
  rewrite filter_cons, decide_True by done. by rewrite IH.
Qed.

Lemma checkLimit_reject cfg st c now :
  res_allowed (checkLimit cfg st c now) = false ->
  res_store (checkLimit cfg st c now) = st.
Proof. unfold checkLimit. by repeat case_match. Qed.

Lemma checkLimit_admit cfg st c now :
  res_allowed (checkLimit cfg st c now) = true ->
  res_store (checkLimit cfg st c now)
  = <[c := prune now (default [] (st !! c)) ++ [now]]> st.
Proof. unfold checkLimit. by repeat case_match. Qed.

Lemma checkLimit_other cfg st c c' now :
  c' <> c -> res_store (checkLimit cfg st c' now) !! c = st !! c.
Proof.
  intros Hne. unfold checkLimit.
  repeat case_match; simpl; try done. by rewrite lookup_insert_ne.
Qed.

(** The decision and the warning only read the client's own record. *)
Lemma checkLimit_local cfg st1 st2 c now :
  st1 !! c = st2 !! c ->
  res_allowed (checkLimit cfg st1 c now) = res_allowed (checkLimit cfg st2 c now) /\
  res_warn (checkLimit cfg st1 c now) = res_warn (checkLimit cfg st2 c now).
Proof. intros Heq. unfold checkLimit. rewrite Heq. by repeat case_match. Qed.

(** Admitted instants kept in a client's record all count in the minute
    window of any later call within the same one-minute span. *)
Lemma minute_count_sublist (t0 now : Z) (A L : list Z) :
  A `sublist_of` L -> Forall (in_span t0) A -> in_span t0 now ->
  (length A <= count_within minute now (prune now L))%nat.
Proof.
  intros Hsub HA Hnow. unfold count_within, prune.
  assert (Hm : Forall (fun ts => now - ts < minute) A).
  { eapply Forall_impl; [exact HA|]. unfold in_span in *. intros ts ?. lia. }
  assert (Hd : Forall (fun ts => now - ts < day) A).
  { eapply Forall_impl; [exact Hm|]. unfold day, hour, minute. intros ts ?. lia. }
  apply sublist_length.
  rewrite <- (filter_all _ A Hm) at 1. apply filter_sublist_mono.
  rewrite <- (filter_all _ A Hd). by apply filter_sublist_mono.
Qed.

Lemma run_cons_log cfg st c now rest :
  (run cfg st ((c, now) :: rest)).1
  = (c, now, res_allowed (checkLimit cfg st c now))
      :: (run cfg (res_store (checkLimit cfg st c now)) rest).1.
Proof. simpl. by destruct (run _ _ rest). Qed.

Lemma run_cons_store cfg st c now rest :
  (run cfg st ((c, now) :: rest)).2
  = (run cfg (res_store (checkLimit cfg st c now)) rest).2.
Proof. simpl. by destruct (run _ _ rest). Qed.

Lemma admitted_times_cons c c' now b log :
  admitted_times c ((c', now, b) :: log)
  = if decide (c' = c /\ b = true) then now :: admitted_times c log
    else admitted_times c log.
Proof. unfold admitted_times. rewrite filter_cons. simpl. by case_decide. Qed.

Lemma prune_span (t0 now : Z) (A : list Z) :
  Forall (in_span t0) A -> in_span t0 now -> prune now A = A.
Proof.
  intros HA Hnow. apply filter_all. eapply Forall_impl; [exact HA|].
  unfold in_span, day, hour, minute in *. intros ts ?. lia.
Qed.

(** The calls of client [c] all fall in the one-minute span from [t0]. *)
Definition calls_in_span (c : string) (t0 : Z) (calls : list (string * Z)) : Prop :=
  Forall (fun x => x.1 = c -> in_span t0 x.2) calls.

Lemma admitted_in_span cfg c t0 (calls : list (string * Z)) st :
  calls_in_span c t0 calls ->
  Forall (in_span t0) (admitted_times c (run cfg st calls).1).
Proof.
  revert st. induction calls as [|[c' now] rest IH]; intros st Hc; [constructor|].
  inversion Hc as [|? ? Hx Hrest]; subst.
  rewrite run_cons_log, admitted_times_cons. case_decide as Hd.
  - destruct Hd as [-> _]. constructor; [by apply Hx|]. by apply IH.
  - by apply IH.
Qed.

(** Every admitted instant of [c] within the span stays in [c]'s record. *)
Lemma run_admitted_sublist cfg c t0 (calls : list (string * Z)) st (A : list Z) :
  A `sublist_of` default [] (st !! c) -> Forall (in_span t0) A ->
  calls_in_span c t0 calls ->
  A ++ admitted_times c (run cfg st calls).1
    `sublist_of` default [] ((run cfg st calls).2 !! c).
Proof.
  revert st A. induction calls as [|[c' now] rest IH]; intros st A Hsub HA Hc.
  { simpl. by rewrite app_nil_r. }
  inversion Hc as [|? ? Hx Hrest]; subst.
  rewrite run_cons_log, run_cons_store, admitted_times_cons.
  destruct (decide (c' = c)) as [->|Hne].
  - destruct (res_allowed (checkLimit cfg st c now)) eqn:Hal.
    + rewrite decide_True by done.
      assert (Hnow : in_span t0 now) by (by apply Hx).
      replace (A ++ now :: _) with ((A ++ [now]) ++ admitted_times c
        (run cfg (res_store (checkLimit cfg st c now)) rest).1)
        by by rewrite <- app_assoc.
      apply IH; [|by apply Forall_app; split; [|constructor]|done].
      rewrite checkLimit_admit by done. rewrite lookup_insert_eq. simpl.
      apply sublist_app; [|done].
      rewrite <- (prune_span t0 now A) by done. by apply filter_sublist_mono.
    + rewrite decide_False by (intros [_ ?]; discriminate).
      apply IH; [|done|done]. by rewrite checkLimit_reject.
  - rewrite decide_False by (intros [? _]; done).
    apply IH; [|done|done]. by rewrite checkLimit_other.
Qed.

Lemma checkLimit_admit_minute cfg st c now :
  res_allowed (checkLimit cfg st c now) = true ->
  js_ge (count_within minute now (prune now (default [] (st !! c))))
        (requestsPerMinute cfg) = false.
Proof. unfold checkLimit. by repeat case_match. Qed.

(** Within one span, a minute cap of [k] admits at most [k] calls of [c]. *)
Lemma run_admitted_bound cfg c t0 (k : nat) (calls : list (string * Z)) st (A : list Z) :
  requestsPerMinute cfg = js_of_nat k ->
  A `sublist_of` default [] (st !! c) -> Forall (in_span t0) A ->
  (length A <= k)%nat -> calls_in_span c t0 calls ->
  (length A + length (admitted_times c (run cfg st calls).1) <= k)%nat.
Proof.
  intros Hcap. revert st A.
  induction calls as [|[c' now] rest IH]; intros st A Hsub HA Hk Hc.
  { simpl. lia. }
  inversion Hc as [|? ? Hx Hrest]; subst.
  rewrite run_cons_log, admitted_times_cons.
  destruct (decide (c' = c)) as [->|Hne].
  - destruct (res_allowed (checkLimit cfg st c now)) eqn:Hal.
    + rewrite decide_True by done. simpl.
      assert (Hnow : in_span t0 now) by (by apply Hx).
      pose proof (checkLimit_admit_minute cfg st c now Hal) as Hm.
      rewrite Hcap, js_ge_of_nat in Hm. apply Nat.leb_gt in Hm.
      pose proof (minute_count_sublist t0 now A _ Hsub HA Hnow).
      specialize (IH (res_store (checkLimit cfg st c now)) (A ++ [now])).
      rewrite length_app in IH. simpl in IH.
      assert (length A + 1 + length (admitted_times c
        (run cfg (res_store (checkLimit cfg st c now)) rest).1) <= k)%nat;
        [|lia].
      apply IH; [|by apply Forall_app; split; [|constructor]|lia|done].
      rewrite checkLimit_admit by done. rewrite lookup_insert_eq. simpl.
      apply sublist_app; [|done].
      rewrite <- (prune_span t0 now A) by done. by apply filter_sublist_mono.
    + rewrite decide_False by (intros [_ ?]; discriminate).
      apply IH; [|done|done|done]. by rewrite checkLimit_reject.
  - rewrite decide_False by (intros [? _]; done).
    apply IH; [|done|done|done]. by rewrite checkLimit_other.
Qed.

(** ** Claims *)

(** C1: with a minute cap of [k], once [k] calls of a client have been
    admitted within a one-minute span (other clients' calls and rejected
    calls may be interleaved), the next call of that client within the
    span is rejected; no span ever sees more than [k] admissions of the
    client; and under {minute:2, hour:10, day:10} three calls of "A" at one
    instant yield [true, true, false]. *)
Theorem C1_minute_cap_rejects cfg (st : store) (c : string)
    (calls : list (string * Z)) (t0 now : Z) (k : nat) :
  requestsPerMinute cfg = js_of_nat k ->
  calls_in_span c t0 calls -> in_span t0 now ->
  length (admitted_times c (run cfg st calls).1) = k ->
  res_allowed (checkLimit cfg (run cfg st calls).2 c now) = false /\
  (length (admitted_times c (run cfg st (calls ++ [(c, now)])).1) <= k)%nat /\
  decisions cfg_2_10_10 ∅ [("A", 1000); ("A", 1000); ("A", 1000)]
    = [true; true; false].
Proof.
  intros Hcap Hc Hnow Hk. split; [|split].
  - pose proof (run_admitted_sublist cfg c t0 calls st [] (sublist_nil_l _)
      (List.Forall_nil _) Hc) as Hsub.
    pose proof (minute_count_sublist t0 now _ _ Hsub
      (admitted_in_span cfg c t0 calls st Hc) Hnow) as Hge.
    simpl in Hge. rewrite Hk in Hge.
    unfold checkLimit. rewrite Hcap, js_ge_of_nat.
    apply Nat.leb_le in Hge. by rewrite Hge.
  - pose proof (run_admitted_bound cfg c t0 k (calls ++ [(c, now)]) st []
      Hcap (sublist_nil_l _) (List.Forall_nil _) ltac:(simpl; lia)) as H.
    simpl in H. apply H. apply Forall_app. split; [done|].
    constructor; [by intros _|constructor].
  - vm_compute. reflexivity.
Qed.

Lemma C1_minute_cap_rejects_witness :
  requestsPerMinute cfg_2_10_10 = js_of_nat 2 /\
  res_allowed (checkLimit cfg_2_10_10 (run cfg_2_10_10 ∅ [("A", 0); ("B", 5); ("A", 10)]).2 "A" 20)
  = false.
Proof.
  split; [reflexivity|].
  apply (C1_minute_cap_rejects cfg_2_10_10 ∅ "A" [("A", 0); ("B", 5); ("A", 10)] 0 20 2).
  - reflexivity.
  - unfold calls_in_span, in_span, minute.
    repeat constructor; simpl; intros; try lia; discriminate.
  - unfold in_span, minute. lia.
  - vm_compute. reflexivity.
Defined.

(** C2: a rejecting call leaves the whole store unchanged, so every later
    sequence of calls behaves exactly as if the rejected call had not
    happened. *)
Theorem C2_reject_records_nothing cfg (st : store) (c : string) (now : Z) :
  res_allowed (checkLimit cfg st c now) = false ->
  res_store (checkLimit cfg st c now) = st /\
  forall calls : list (string * Z),
    run cfg (res_store (checkLimit cfg st c now)) calls = run cfg st calls.
Proof.
  intros Hrej. pose proof (checkLimit_reject cfg st c now Hrej) as Hst.
  split; [done|]. intros calls. by rewrite Hst.
Qed.

Lemma C2_reject_records_nothing_witness :
  res_allowed (checkLimit cfg_2_10_10 {[ "A" := [0; 0] ]} "A" 10) = false /\
  res_store (checkLimit cfg_2_10_10 {[ "A" := [0; 0] ]} "A" 10) = {[ "A" := [0; 0] ]}.
Proof.
  assert (H : res_allowed (checkLimit cfg_2_10_10 {[ "A" := [0; 0] ]} "A" 10) = false)
    by (vm_compute; reflexivity).
  split; [exact H|]. exact (proj1 (C2_reject_records_nothing _ _ _ _ H)).
Defined.

(** The three windows as the code names them in its warnings. *)
Definition window_count (w : window) (now : Z) (timestamps : list Z) : nat :=
  match w with
  | Minute => count_within minute now timestamps
  | Hour => count_within hour now timestamps
  | Day => length timestamps
  end.

Definition window_cap (cfg : RateLimitConfig) (w : window) : number :=
  match w with
  | Minute => requestsPerMinute cfg
  | Hour => requestsPerHour cfg
  | Day => requestsPerDay cfg
  end.

(** The window [w] is at or over its cap for the pruned record. *)
Definition exceeded cfg (st : store) (c : string) (now : Z) (w : window) : Prop :=
  js_ge (window_count w now (prune now (default [] (st !! c)))) (window_cap cfg w) = true.

(** C3: for any caps, whatever their relative sizes, the call rejects
    reporting the minute window iff the minute window is at its cap, the
    hour window iff the minute window is below and the hour window at its
    cap, the day window iff both earlier ones are below and the day window
    at its cap; it admits iff no window is reported. *)
Theorem C3_windows_in_order cfg (st : store) (c : string) (now : Z) :
  (res_warn (checkLimit cfg st c now) = Some Minute <-> exceeded cfg st c now Minute) /\
  (res_warn (checkLimit cfg st c now) = Some Hour <->
     ~ exceeded cfg st c now Minute /\ exceeded cfg st c now Hour) /\
  (res_warn (checkLimit cfg st c now) = Some Day <->
     ~ exceeded cfg st c now Minute /\ ~ exceeded cfg st c now Hour /\
     exceeded cfg st c now Day) /\
  (res_allowed (checkLimit cfg st c now) = true <-> res_warn (checkLimit cfg st c now) = None).
Proof.
  unfold exceeded, checkLimit; simpl.
  repeat case_match; simpl; intuition congruence.
Qed.

(** C4 (as written): a rejecting call does not persist the pruned list.
    From an empty limiter with caps {minute:1, hour:10, day:10}, client "A"
    is admitted at 0 and at 86 399 999 and rejected at 86 400 500; the
    record then still holds the timestamp 0, more than 24 h old. *)
Definition cfg_1_10_10 : RateLimitConfig :=
  constructor (Some {| p_requestsPerMinute := Some (js_of_nat 1);
                       p_requestsPerHour := Some (js_of_nat 10);
                       p_requestsPerDay := Some (js_of_nat 10) |}).

Lemma C4_stale_after_reject :
  decisions cfg_1_10_10 ∅ [("A", 0); ("A", 86399999); ("A", 86400500)]
    = [true; true; false] /\
  (run cfg_1_10_10 ∅ [("A", 0); ("A", 86399999); ("A", 86400500)]).2 !! "A"
    = Some [0; 86399999] /\
  86400500 - 0 >= day.
Proof. vm_compute. repeat split; congruence. Qed.

(** C4 (amended): the record is re-persisted only by an admitting call,
    and then holds exactly the timestamps younger than 24 h plus [now];
    a rejecting call leaves the store as it was. *)
Theorem C4_prune_persisted_on_admit cfg (st : store) (c : string) (now : Z) :
  if res_allowed (checkLimit cfg st c now) then
    res_store (checkLimit cfg st c now) !! c
      = Some (prune now (default [] (st !! c)) ++ [now]) /\
    Forall (fun ts => now - ts < day)
      (prune now (default [] (st !! c)) ++ [now])
  else res_store (checkLimit cfg st c now) = st.
Proof.
  destruct (res_allowed (checkLimit cfg st c now)) eqn:Hal.
  - rewrite checkLimit_admit by done. rewrite lookup_insert_eq. split; [done|].
    apply Forall_app. split.
    + apply Forall_forall. intros ts Hts. unfold prune in Hts.
      by apply list_elem_of_filter in Hts as [? _].
    + constructor; [unfold day, hour, minute; lia|constructor].
  - by apply checkLimit_reject.
Qed.

Lemma prune_all_old (t : Z) (L : list Z) :
  Forall (fun ts => ts <= t) L -> prune (t + day + 1) L = [].
Proof.
  induction 1 as [|ts L Hts ? IH]; [done|].
  unfold prune in *. rewrite filter_cons, decide_False; [done|].
  unfold day, hour, minute in *. lia.
Qed.

(** C5: with a clock that never runs backwards (the record of [c] holds no
    instant after [t]), after an admitted call at [t] the call at
    [t + 24h + 1ms] sees an empty pruned history (all three counts zero)
    and decides, warns and (when admitting) updates the store exactly as it
    would for a client that was never seen. *)
Theorem C5_day_apart_independent cfg (st : store) (c : string) (t : Z) :
  Forall (fun ts => ts <= t) (default [] (st !! c)) ->
  res_allowed (checkLimit cfg st c t) = true ->
  let st1 := res_store (checkLimit cfg st c t) in
  let r1 := checkLimit cfg st1 c (t + day + 1) in
  let r0 := checkLimit cfg (delete c st1) c (t + day + 1) in
  prune (t + day + 1) (default [] (st1 !! c)) = [] /\
  res_allowed r1 = res_allowed r0 /\ res_warn r1 = res_warn r0 /\
  res_store r1 = (if res_allowed r1 then res_store r0 else st1).
Proof.
  intros Hold Hal st1 r1 r0.
  assert (Hp : prune (t + day + 1) (default [] (st1 !! c)) = []).
  { unfold st1. rewrite checkLimit_admit by done. rewrite lookup_insert_eq. simpl.
    apply prune_all_old. apply Forall_app. split; [|constructor; [lia|constructor]].
    apply Forall_forall. intros ts Hts. unfold prune in Hts.
    apply list_elem_of_filter in Hts as [_ Hin].
    rewrite Forall_forall in Hold. by apply Hold. }
  split; [done|].
  unfold r1, r0, checkLimit. rewrite Hp, lookup_delete_eq.
  change (prune (t + day + 1) (default [] None)) with (@nil Z).
  repeat case_match; simpl; try done. by rewrite insert_delete_eq.
Qed.

Lemma C5_day_apart_independent_witness :
  res_allowed (checkLimit cfg_2_10_10 (res_store (checkLimit cfg_2_10_10 {[ "A" := [500] ]} "A" 1000))
                 "A" (1000 + day + 1))
  = res_allowed (checkLimit cfg_2_10_10
       (delete "A" (res_store (checkLimit cfg_2_10_10 {[ "A" := [500] ]} "A" 1000)))
       "A" (1000 + day + 1)).
Proof.
  refine (proj1 (proj2 (C5_day_apart_independent cfg_2_10_10 {[ "A" := [500] ]} "A" 1000 _ _))).
  - vm_compute. repeat constructor; discriminate.
  - vm_compute. reflexivity.
Defined.

(** Caps of a partial configuration, by window. *)
Definition p_window_cap (p : PartialConfig) (w : window) : option number :=
  match w with
  | Minute => p_requestsPerMinute p
  | Hour => p_requestsPerHour p
  | Day => p_requestsPerDay p
  end.

Lemma js_ge_nonpos (n : nat) (q : Q) : (q <= 0)%Q -> js_ge n (Fin q) = true.
Proof.
  intros Hq. unfold js_ge. apply Qle_bool_iff.
  apply Qle_trans with 0%Q; [done|]. change 0%Q with (inject_Z 0).
  rewrite <- Zle_Qle. lia.
Qed.

(** C6 (as written): the constructor accepts a zero minute cap; the
    resulting limiter rejects even the first call of a fresh client. *)
Lemma C6_zero_cap_accepted :
  requestsPerMinute (constructor (Some {| p_requestsPerMinute := Some (Fin 0);
                                          p_requestsPerHour := None;
                                          p_requestsPerDay := None |})) = Fin 0 /\
  res_allowed (checkLimit (constructor (Some {| p_requestsPerMinute := Some (Fin 0);
                                                p_requestsPerHour := None;
                                                p_requestsPerDay := None |})) ∅ "A" 0)
  = false.
Proof. split; reflexivity. Qed.

(** C6 (amended): the constructor performs no validation: a supplied
    non-positive cap is stored as given, and the limiter built from it
    rejects every call. *)
Theorem C6_nonpositive_cap_kept (p : PartialConfig) (w : window) (q : Q)
    (st : store) (c : string) (now : Z) :
  p_window_cap p w = Some (Fin q) -> (q <= 0)%Q ->
  window_cap (constructor (Some p)) w = Fin q /\
  res_allowed (checkLimit (constructor (Some p)) st c now) = false.
Proof.
  intros Hp Hq.
  assert (Hcap : window_cap (constructor (Some p)) w = Fin q).
  { destruct w; cbn in *; by rewrite Hp. }
  split; [done|].
  generalize dependent (constructor (Some p)). intros cfg Hcap.
  unfold checkLimit.
  destruct w; simpl in Hcap; rewrite Hcap, js_ge_nonpos by done;
    by repeat case_match.
Qed.

Lemma C6_nonpositive_cap_kept_witness :
  res_allowed (checkLimit (constructor (Some {| p_requestsPerMinute := None;
                                                p_requestsPerHour := Some (Fin (-3));
                                                p_requestsPerDay := None |})) ∅ "A" 0)
  = false.
Proof.
  refine (proj2 (C6_nonpositive_cap_kept _ Hour (-3) ∅ "A" 0 _ _)).
  - reflexivity.
  - vm_compute. discriminate.
Defined.

Lemma run_other_lookup cfg (calls : list (string * Z)) (st : store) (b : string) :
  Forall (fun x => x.1 <> b) calls -> (run cfg st calls).2 !! b = st !! b.
Proof.
  revert st. induction calls as [|[c now] rest IH]; intros st Hc; [done|].
  inversion Hc as [|? ? Hx Hrest]; subst. simpl in Hx.
  rewrite run_cons_store, IH by done. by apply checkLimit_other.
Qed.

(** C7: calls for clients other than [b], in any number, leave the
    decision and warning of a later call for [b] exactly as without them;
    concretely, after "A" is rejected under {minute:2, hour:10, day:10}, a
    call for "B" at the same instant is admitted. *)
Theorem C7_clients_isolated cfg (st : store) (calls : list (string * Z))
    (b : string) (now : Z) :
  Forall (fun x => x.1 <> b) calls ->
  res_allowed (checkLimit cfg (run cfg st calls).2 b now)
    = res_allowed (checkLimit cfg st b now) /\
  res_warn (checkLimit cfg (run cfg st calls).2 b now)
    = res_warn (checkLimit cfg st b now) /\
  decisions cfg_2_10_10 ∅ [("A", 1000); ("A", 1000); ("A", 1000); ("B", 1000)]
    = [true; true; false; true].
Proof.
  intros Hc. pose proof (checkLimit_local cfg (run cfg st calls).2 st b now
    (run_other_lookup cfg calls st b Hc)) as [? ?].
  split; [done|split; [done|]]. vm_compute. reflexivity.
Qed.

Lemma C7_clients_isolated_witness :
  res_allowed (checkLimit cfg_2_10_10
    (run cfg_2_10_10 ∅ [("A", 1000); ("A", 1000); ("A", 1000)]).2 "B" 1000)
  = res_allowed (checkLimit cfg_2_10_10 ∅ "B" 1000).
Proof.
  refine (proj1 (C7_clients_isolated cfg_2_10_10 ∅ _ "B" 1000 _)).
  repeat constructor; simpl; discriminate.
Defined.

(** C8: without overrides the caps are 60/minute, 1000/hour, 5000/day; in
    the chat-proxy instance each cap whose environment variable is unset
    or not numeric is its default 15/minute, 250/hour, 500/day. *)
Theorem C8_default_caps :
  constructor None
    = {| requestsPerMinute := js_of_nat 60; requestsPerHour := js_of_nat 1000;
         requestsPerDay := js_of_nat 5000 |} /\
  (forall (StringToNumber : string -> number) (env : string -> option string),
     unset_or_non_numeric StringToNumber (env "RATE_LIMIT_REQUESTS_PER_MINUTE") ->
     requestsPerMinute (chat_rateLimiter StringToNumber env) = js_of_nat 15) /\
  (forall (StringToNumber : string -> number) (env : string -> option string),
     unset_or_non_numeric StringToNumber (env "RATE_LIMIT_REQUESTS_PER_HOUR") ->
     requestsPerHour (chat_rateLimiter StringToNumber env) = js_of_nat 250) /\
  (forall (StringToNumber : string -> number) (env : string -> option string),
     unset_or_non_numeric StringToNumber (env "RATE_LIMIT_REQUESTS_PER_DAY") ->
     requestsPerDay (chat_rateLimiter StringToNumber env) = js_of_nat 500).
Proof.
  split; [reflexivity|].
  split; [|split]; intros toNum env [Hv|(s & Hv & Hs)];
    cbn; unfold env_cap, Number; rewrite Hv; try rewrite Hs; reflexivity.
Qed.

(** A numeric-literal reader that knows "20" only. *)
Definition toNumber_20 (s : string) : number :=
  if String.eqb s "20" then js_of_nat 20 else NaN.

Definition env_abc (v : string) : option string :=
  if String.eqb v "RATE_LIMIT_REQUESTS_PER_MINUTE" then Some "abc"
  else if String.eqb v "RATE_LIMIT_REQUESTS_PER_HOUR" then Some "20"
  else None.

Lemma C8_default_caps_witness :
  requestsPerMinute (chat_rateLimiter toNumber_20 env_abc) = js_of_nat 15 /\
  requestsPerDay (chat_rateLimiter toNumber_20 env_abc) = js_of_nat 500.
Proof.
  split.
  - apply (proj1 (proj2 C8_default_caps)). right. exists "abc".
    split; vm_compute; reflexivity.
  - apply (proj2 (proj2 (proj2 C8_default_caps))). left. vm_compute. reflexivity.
Defined.

(** C9 (as written): with caps {minute:2, hour:1, day:10} three calls of a
    fresh client at one instant admit one call, not two. *)
Definition cfg_2_1_10 : RateLimitConfig :=
  constructor (Some {| p_requestsPerMinute := Some (js_of_nat 2);
                       p_requestsPerHour := Some (js_of_nat 1);
                       p_requestsPerDay := Some (js_of_nat 10) |}).

Lemma C9_hour_cap_below_minute_cap :
  decisions cfg_2_1_10 ∅ [("A", 0); ("A", 0); ("A", 0)] = [true; false; false].
Proof. vm_compute. reflexivity. Qed.

Lemma count_span (w t0 now : Z) (A : list Z) :
  minute <= w -> Forall (in_span t0) A -> in_span t0 now ->
  count_within w now A = length A.
Proof.
  intros Hw HA Hnow. unfold count_within. f_equal. apply filter_all.
  eapply Forall_impl; [exact HA|]. unfold in_span in *. intros ts ?. lia.
Qed.

Lemma run_log_length cfg (st : store) (calls : list (string * Z)) :
  length (run cfg st calls).1 = length calls.
Proof.
  revert st. induction calls as [|[c now] rest IH]; intros st; [done|].
  rewrite run_cons_log. simpl. by rewrite IH.
Qed.

(** With the hour and day caps at least the minute cap [k], calls of [c]
    within one span, starting from a record [A] of instants in that span,
    are admitted until [k] instants are recorded, then rejected. *)
Lemma run_span_exact cfg c t0 (k h d : nat) (calls : list (string * Z))
    (st : store) (A : list Z) :
  requestsPerMinute cfg = js_of_nat k ->
  requestsPerHour cfg = js_of_nat h -> requestsPerDay cfg = js_of_nat d ->
  (k <= h)%nat -> (k <= d)%nat ->
  default [] (st !! c) = A -> Forall (in_span t0) A -> (length A <= k)%nat ->
  Forall (fun x => x.1 = c /\ in_span t0 x.2) calls ->
  (length A + length (admitted_times c (run cfg st calls).1)
   = Nat.min (length A + length calls) k)%nat.
Proof.
  intros Hm Hh Hd Hkh Hkd. revert st A.
  induction calls as [|[c' now] rest IH]; intros st A Hst HA Hk Hc.
  { simpl. lia. }
  inversion Hc as [|? ? Hxn Hrest]. destruct Hxn as [Hx Hnow].
  simpl in Hx, Hnow. subst c'.
  rewrite run_cons_log, admitted_times_cons. simpl length.
  assert (Hpr : prune now (default [] (st !! c)) = A)
    by (rewrite Hst; by apply (prune_span t0)).
  assert (Hcm : count_within minute now A = length A)
    by (apply (count_span _ t0); unfold minute; lia || done).
  assert (Hch : count_within hour now A = length A)
    by (apply (count_span _ t0); unfold hour, minute; lia || done).
  destruct (decide (length A < k)%nat) as [Hlt|Hge].
  - assert (Hal : res_allowed (checkLimit cfg st c now) = true).
    { unfold checkLimit. rewrite Hpr, Hcm, Hch, Hm, Hh, Hd, !js_ge_of_nat.
      rewrite (proj2 (Nat.leb_gt _ _)) by lia.
      rewrite (proj2 (Nat.leb_gt _ _)) by lia.
      rewrite (proj2 (Nat.leb_gt _ _)) by lia. done. }
    rewrite Hal, decide_True by done. simpl length.
    specialize (IH (res_store (checkLimit cfg st c now)) (A ++ [now])).
    rewrite length_app in IH. simpl in IH.
    enough (length A + 1 + length (admitted_times c
      (run cfg (res_store (checkLimit cfg st c now)) rest).1)
      = Nat.min (length A + 1 + length rest) k)%nat by lia.
    apply IH; [|by apply Forall_app; split; [|constructor]|lia|done].
    rewrite checkLimit_admit by done. by rewrite lookup_insert_eq, Hpr.
  - assert (Hrej : res_allowed (checkLimit cfg st c now) = false).
    { unfold checkLimit. rewrite Hpr, Hcm, Hm, js_ge_of_nat.
      rewrite (proj2 (Nat.leb_le _ _)) by lia. done. }
    rewrite Hrej, decide_False by (intros [_ ?]; discriminate).
    specialize (IH st A Hst HA Hk Hrest).
    rewrite checkLimit_reject by done. lia.
Qed.

(** C9 (amended): calls of one client are decided one at a time (the body
    of [checkLimit] has no [await]). Of [N] calls of the client within one
    minute, at most the minute cap [k] are admitted; when the client has
    no stored record and the hour and day caps are at least [k], exactly
    [min N k] are admitted and the remaining calls are rejected. *)
Theorem C9_simultaneous_calls cfg (st : store) (c : string) (t0 : Z) (k : nat)
    (calls : list (string * Z)) :
  requestsPerMinute cfg = js_of_nat k ->
  Forall (fun x => x.1 = c /\ in_span t0 x.2) calls ->
  (length (admitted_times c (run cfg st calls).1) <= k)%nat /\
  length (run cfg st calls).1 = length calls /\
  (forall h d : nat,
     st !! c = None ->
     requestsPerHour cfg = js_of_nat h -> requestsPerDay cfg = js_of_nat d ->
     (k <= h)%nat -> (k <= d)%nat ->
     length (admitted_times c (run cfg st calls).1) = Nat.min (length calls) k).
Proof.
  intros Hm Hc.
  assert (Hsp : calls_in_span c t0 calls).
  { eapply Forall_impl; [exact Hc|]. intros x [_ ?] _. done. }
  split; [|split].
  - exact (run_admitted_bound cfg c t0 k calls st [] Hm (sublist_nil_l _)
      (List.Forall_nil _) ltac:(simpl; lia) Hsp).
  - apply run_log_length.
  - intros h d Hnone Hh Hd Hkh Hkd.
    pose proof (run_span_exact cfg c t0 k h d calls st [] Hm Hh Hd Hkh Hkd
      ltac:(by rewrite Hnone) (List.Forall_nil _) ltac:(simpl; lia) Hc) as H.
    simpl in H. exact H.
Qed.

Lemma C9_simultaneous_calls_witness :
  length (admitted_times "A"
    (run cfg_2_10_10 ∅ [("A", 0); ("A", 0); ("A", 0); ("A", 0)]).1) = 2%nat.
Proof.
  refine (proj2 (proj2 (C9_simultaneous_calls cfg_2_10_10 ∅ "A" 0 2
    [("A", 0); ("A", 0); ("A", 0); ("A", 0)] _ _)) 10%nat 10%nat _ _ _ _ _).
  - reflexivity.
  - unfold in_span, minute.
    repeat (apply List.Forall_cons; [simpl; split; [reflexivity|lia]|]).
    apply List.Forall_nil.
  - reflexivity.
  - reflexivity.
  - reflexivity.
  - lia.
  - lia.
Defined.

Lemma filter_single (P : Z -> Prop) `{!forall x, Decision (P x)} (x : Z) :
  filter P [x] = if decide (P x) then [x] else [].
Proof. rewrite filter_cons. by case_decide. Qed.

(** C10: a timestamp counts in a window only when its age is strictly
    below the window length: aged exactly 60 000 ms it is outside the
    minute window, aged exactly 3 600 000 ms outside the hour window, and
    aged exactly 86 400 000 ms it is pruned. *)
Theorem C10_strict_boundaries (now ts : Z) :
  (count_within minute now (prune now [ts]) = 1%nat <-> now - ts < 60000) /\
  (count_within hour now (prune now [ts]) = 1%nat <-> now - ts < 3600000) /\
  (length (prune now [ts]) = 1%nat <-> now - ts < 86400000) /\
  count_within minute now (prune now [now - 60000]) = 0%nat /\
  count_within hour now (prune now [now - 3600000]) = 0%nat /\
  prune now [now - 86400000] = [].
Proof.
  unfold count_within, prune, day, hour, minute.
  repeat split; intros;
    repeat (rewrite filter_single in * || case_decide); simpl in *; try lia; done.
Qed.

(** ** Further properties of the limiter *)

(** A client obtains a record only through an admitted call. *)
Theorem run_record_exists cfg (st : store) (calls : list (string * Z)) (c : string) :
  is_Some ((run cfg st calls).2 !! c) <->
  is_Some (st !! c) \/ (exists now, (c, now, true) ∈ (run cfg st calls).1).
Proof.
  revert st. induction calls as [|[c' now] rest IH]; intros st.
  { simpl. split; [by left|]. intros [?|(? & Hin)]; [done|]. by apply elem_of_nil in Hin. }
  rewrite run_cons_log, run_cons_store, IH.
  destruct (res_allowed (checkLimit cfg st c' now)) eqn:Hal.
  - rewrite checkLimit_admit by done.
    destruct (decide (c' = c)) as [->|Hne].
    + rewrite lookup_insert_eq. split; [intros _|intros _; by left].
      right. exists now. apply elem_of_cons; by left.
    + rewrite lookup_insert_ne by done. setoid_rewrite elem_of_cons.
      split; intros [?|(t & Ht)]; eauto.
      destruct Ht as [Ht|Ht]; [congruence|eauto].
  - rewrite checkLimit_reject by done. setoid_rewrite elem_of_cons.
    split; intros [?|(t & Ht)]; eauto.
    destruct Ht as [Ht|Ht]; [congruence|eauto].
Qed.

Lemma run_record_exists_witness :
  is_Some ((run cfg_2_10_10 ∅ [("B", 5)]).2 !! "B").
Proof.
  apply (proj2 (run_record_exists cfg_2_10_10 ∅ [("B", 5)] "B")).
  right. exists 5. vm_compute. apply elem_of_cons; by left.
Defined.

(** Every record holds at most [d] timestamps when the day cap is [d]. *)
Definition records_bounded (d : nat) (st : store) : Prop :=
  map_Forall (fun _ (l : list Z) => (length l <= d)%nat) st.

Lemma checkLimit_admit_day cfg st c now :
  res_allowed (checkLimit cfg st c now) = true ->
  js_ge (length (prune now (default [] (st !! c)))) (requestsPerDay cfg) = false.
Proof. unfold checkLimit. by repeat case_match. Qed.

Theorem run_records_bounded cfg (d : nat) (st : store) (calls : list (string * Z)) :
  requestsPerDay cfg = js_of_nat d -> records_bounded d st ->
  records_bounded d (run cfg st calls).2.
Proof.
  intros Hd. revert st. induction calls as [|[c now] rest IH]; intros st Hb; [done|].
  rewrite run_cons_store. apply IH.
  destruct (res_allowed (checkLimit cfg st c now)) eqn:Hal.
  - rewrite checkLimit_admit by done. apply map_Forall_insert_2; [|done].
    pose proof (checkLimit_admit_day cfg st c now Hal) as Hday.
    rewrite Hd, js_ge_of_nat in Hday. apply Nat.leb_gt in Hday.
    rewrite length_app. simpl. lia.
  - by rewrite checkLimit_reject.
Qed.

Lemma run_records_bounded_witness :
  records_bounded 10 (run cfg_2_10_10 ∅ [("A", 0); ("A", 0); ("A", 0)]).2.
Proof.
  apply run_records_bounded; [reflexivity|]. apply map_Forall_empty.
Defined.

Lemma strongly_sorted_filter (P : Z -> Prop) `{!forall x, Decision (P x)} (l : list Z) :
  StronglySorted Z.le l -> StronglySorted Z.le (filter P l).
Proof.
  induction 1 as [|x l ? IH Hx]; [constructor|].
  rewrite filter_cons. case_decide; [|done].
  constructor; [done|]. apply Forall_forall. intros y Hy.
  apply list_elem_of_filter in Hy as [_ Hy]. rewrite Forall_forall in Hx. by apply Hx.
Qed.

Lemma strongly_sorted_snoc (l : list Z) (x : Z) :
  StronglySorted Z.le l -> Forall (fun y => y <= x) l ->
  StronglySorted Z.le (l ++ [x]).
Proof.
  induction 1 as [|y l ? IH Hy]; intros Hx.
  { repeat constructor. }
  inversion Hx as [|? ? Hyx Hl]; subst. simpl. constructor; [by apply IH|].
  apply Forall_app. split; [done|]. by constructor.
Qed.

(** Each record is sorted and holds no instant after [t]. *)
Definition records_sorted_upto (t : Z) (st : store) : Prop :=
  map_Forall (fun _ (l : list Z) => StronglySorted Z.le l /\ Forall (fun y => y <= t) l) st.

(** With a clock that never runs backwards, every record stays sorted. *)
Theorem run_records_sorted cfg (t : Z) (st : store) (calls : list (string * Z)) :
  records_sorted_upto t st ->
  Forall (fun x => t <= x.2) calls ->
  StronglySorted (fun x y => x.2 <= y.2) calls ->
  map_Forall (fun _ (l : list Z) => StronglySorted Z.le l) (run cfg st calls).2.
Proof.
  revert t st. induction calls as [|[c now] rest IH]; intros t st Hst Ht Hs.
  { eapply map_Forall_impl; [exact Hst|]. by intros ? ? [? _]. }
  inversion Ht as [|? ? Htn Htr]; inversion Hs as [|? ? Hsr Hhd]; subst. simpl in Htn.
  rewrite run_cons_store. apply (IH now); [|done|done].
  assert (Hst' : records_sorted_upto now st).
  { eapply map_Forall_impl; [exact Hst|]. intros ? l [? Hl]. split; [done|].
    eapply Forall_impl; [exact Hl|]. simpl. intros. lia. }
  destruct (res_allowed (checkLimit cfg st c now)) eqn:Hal.
  - rewrite checkLimit_admit by done. apply map_Forall_insert_2; [|done].
    assert (Hc : StronglySorted Z.le (default [] (st !! c)) /\
                 Forall (fun y => y <= now) (default [] (st !! c))).
    { destruct (st !! c) as [l|] eqn:E; [by apply (Hst' c l)|split; constructor]. }
    destruct Hc as [Hcs Hcb]. split.
    + apply strongly_sorted_snoc; [by apply strongly_sorted_filter|].
      apply Forall_forall. intros y Hy. unfold prune in Hy.
      apply list_elem_of_filter in Hy as [_ Hy]. rewrite Forall_forall in Hcb. by apply Hcb.
    + apply Forall_app. split; [|constructor; [lia|constructor]].
      apply Forall_forall. intros y Hy. unfold prune in Hy.
      apply list_elem_of_filter in Hy as [_ Hy]. rewrite Forall_forall in Hcb. by apply Hcb.
  - by rewrite checkLimit_reject.
Qed.

Lemma run_records_sorted_witness :
  map_Forall (fun _ (l : list Z) => StronglySorted Z.le l)
    (run cfg_2_10_10 ∅ [("A", 0); ("B", 3); ("A", 7)]).2.
Proof.
  apply (run_records_sorted _ 0).
  - apply map_Forall_empty.
  - repeat constructor; simpl; lia.
  - repeat constructor; simpl; lia.
Defined.

Lemma filter_sublist_weaken (P Q : Z -> Prop) `{!forall x, Decision (P x)}
    `{!forall x, Decision (Q x)} (l : list Z) :
  (forall x, P x -> Q x) -> filter P l `sublist_of` filter Q l.
Proof.
  intros HPQ. induction l as [|x l IH]; [done|].
  rewrite !filter_cons. repeat case_decide; auto using sublist_skip, sublist_cons.
  exfalso. eauto.
Qed.

(** The three counts of [checkLimit] are nested: minute <= hour <= day. *)
Theorem window_counts_nested (now : Z) (timestamps : list Z) :
  let t := prune now timestamps in
  (count_within minute now t <= count_within hour now t <= length t)%nat.
Proof.
  simpl. unfold count_within. split.
  - apply sublist_length, filter_sublist_weaken. unfold hour, minute. intros x Hx. cbv beta in *. lia.
  - apply sublist_length, sublist_filter.
Qed.

(** A NaN or +Infinity cap never rejects on its window; with all three
    caps of that kind every call is admitted. *)
Definition never_binding (x : number) : Prop := x = NaN \/ x = PosInf.

Lemma js_ge_never_binding (n : nat) (x : number) :
  never_binding x -> js_ge n x = false.
Proof. by intros [-> | ->]. Qed.

Theorem unbounded_cap_never_rejects cfg (st : store) (c : string) (now : Z) (w : window) :
  never_binding (window_cap cfg w) ->
  res_warn (checkLimit cfg st c now) <> Some w /\
  (never_binding (requestsPerMinute cfg) -> never_binding (requestsPerHour cfg) ->
   never_binding (requestsPerDay cfg) -> res_allowed (checkLimit cfg st c now) = true).
Proof.
  intros Hw. split.
  - unfold checkLimit.
    destruct w; simpl in Hw; rewrite (js_ge_never_binding _ _ Hw);
      repeat case_match; simpl; congruence.
  - intros Hm Hh Hd. unfold checkLimit.
    by rewrite !js_ge_never_binding.
Qed.

Lemma unbounded_cap_never_rejects_witness :
  res_warn (checkLimit (constructor (Some {| p_requestsPerMinute := Some NaN;
                                             p_requestsPerHour := None;
                                             p_requestsPerDay := None |}))
             {[ "A" := [0; 0; 0] ]} "A" 0) <> Some Minute.
Proof.
  apply (unbounded_cap_never_rejects _ _ _ _ Minute). left. reflexivity.
Defined.

(** Raising integer caps never turns an admission into a rejection, and
    the admitted call records the same store. *)
Theorem raise_caps_keeps_admission (m h d m' h' d' : nat) (st : store) (c : string) (now : Z) :
  (m <= m')%nat -> (h <= h')%nat -> (d <= d')%nat ->
  let cfg := {| requestsPerMinute := js_of_nat m; requestsPerHour := js_of_nat h;
                requestsPerDay := js_of_nat d |} in
  let cfg' := {| requestsPerMinute := js_of_nat m'; requestsPerHour := js_of_nat h';
                 requestsPerDay := js_of_nat d' |} in
  res_allowed (checkLimit cfg st c now) = true ->
  checkLimit cfg' st c now = checkLimit cfg st c now.
Proof.
  intros Hm Hh Hd cfg cfg'. unfold checkLimit, cfg, cfg'.
  cbn [requestsPerMinute requestsPerHour requestsPerDay res_allowed].
  rewrite !js_ge_of_nat.
  destruct (m <=? _)%nat eqn:E1; [done|].
  destruct (h <=? _)%nat eqn:E2; [done|].
  destruct (d <=? _)%nat eqn:E3; [done|]. intros _.
  apply Nat.leb_gt in E1, E2, E3.
  rewrite (proj2 (Nat.leb_gt _ _)) by lia.
  rewrite (proj2 (Nat.leb_gt _ _)) by lia.
  rewrite (proj2 (Nat.leb_gt _ _)) by lia. done.
Qed.

Lemma raise_caps_keeps_admission_witness :
  res_allowed (checkLimit {| requestsPerMinute := js_of_nat 5; requestsPerHour := js_of_nat 5;
                             requestsPerDay := js_of_nat 5 |} {[ "A" := [0] ]} "A" 10) = true.
Proof.
  rewrite (raise_caps_keeps_admission 2 2 2 5 5 5) by (lia || reflexivity).
  reflexivity.
Defined.

(** A client without a record is admitted whenever every cap is an
    integer of at least 1, and its record becomes [[now]]. *)
Theorem fresh_client_admitted (m h d : nat) (st : store) (c : string) (now : Z) :
  (1 <= m)%nat -> (1 <= h)%nat -> (1 <= d)%nat -> st !! c = None ->
  let cfg := {| requestsPerMinute := js_of_nat m; requestsPerHour := js_of_nat h;
                requestsPerDay := js_of_nat d |} in
  res_allowed (checkLimit cfg st c now) = true /\
  res_store (checkLimit cfg st c now) = <[c := [now]]> st.
Proof.
  intros Hm Hh Hd Hnone cfg.
  assert (Hp : prune now (default [] (st !! c)) = []) by (rewrite Hnone; reflexivity).
  assert (H0 : forall w, count_within w now [] = 0%nat) by reflexivity.
  unfold checkLimit. rewrite Hp, !H0.
  change (length (@nil Z)) with 0%nat.
  unfold cfg. cbn [requestsPerMinute requestsPerHour requestsPerDay].
  rewrite !js_ge_of_nat.
  rewrite (proj2 (Nat.leb_gt _ _)) by lia.
  rewrite (proj2 (Nat.leb_gt _ _)) by lia.
  rewrite (proj2 (Nat.leb_gt _ _)) by lia. done.
Qed.

Lemma fresh_client_admitted_witness :
  res_store (checkLimit cfg_2_10_10 ∅ "A" 42) = {[ "A" := [42] ]}.
Proof.
  refine (eq_trans (proj2 (fresh_client_admitted 2 10 10 ∅ "A" 42 _ _ _ _)) _);
    [lia|lia|lia|reflexivity|reflexivity].
Defined.

(** The environment variable of each window in chat.ts. *)
Definition env_name (w : window) : string :=
  match w with
  | Minute => "RATE_LIMIT_REQUESTS_PER_MINUTE"
  | Hour => "RATE_LIMIT_REQUESTS_PER_HOUR"
  | Day => "RATE_LIMIT_REQUESTS_PER_DAY"
  end.

(** The [|| default] guard of chat.ts only replaces NaN and zero: any
    other parsed override is used as the cap as it is. A negative one
    makes the chat limiter reject every call; +Infinity switches that
    window off. *)
Theorem chat_env_override_kept (StringToNumber : string -> number)
    (env : string -> option string) (w : window) (s : string) :
  env (env_name w) = Some s -> StringToNumber s <> NaN ->
  (forall q, StringToNumber s = Fin q -> ~ (q == 0)%Q) ->
  window_cap (chat_rateLimiter StringToNumber env) w = StringToNumber s /\
  (forall q (st : store) c now, StringToNumber s = Fin q -> (q < 0)%Q ->
     res_allowed (checkLimit (chat_rateLimiter StringToNumber env) st c now) = false) /\
  (forall (st : store) c now, StringToNumber s = PosInf ->
     res_warn (checkLimit (chat_rateLimiter StringToNumber env) st c now) <> Some w).
Proof.
  intros Hs Hnan Hz.
  assert (Hcap : window_cap (chat_rateLimiter StringToNumber env) w = StringToNumber s).
  { assert (Hor : js_or (StringToNumber s) (js_of_nat 0) = StringToNumber s
               /\ forall d, js_or (StringToNumber s) d = StringToNumber s).
    { unfold js_or. destruct (StringToNumber s) eqn:E; try done.
      destruct (Qeq_bool q 0) eqn:Eq; [|done].
      apply Qeq_bool_iff in Eq. by destruct (Hz q eq_refl). }
    destruct Hor as [_ Hor].
    destruct w; cbn; unfold env_cap, Number; simpl in Hs; rewrite Hs; apply Hor. }
  split; [done|split].
  - intros q st c now Hq Hneg.
    generalize dependent (chat_rateLimiter StringToNumber env). intros cfg Hcap.
    rewrite Hq in Hcap. unfold checkLimit.
    destruct w; simpl in Hcap; rewrite Hcap, js_ge_nonpos by (apply Qlt_le_weak; done);
      by repeat case_match.
  - intros st c now Hinf. apply unbounded_cap_never_rejects. right. by rewrite Hcap.
Qed.

Definition toNumber_neg (s : string) : number :=
  if String.eqb s "-5" then Fin (inject_Z (-5)) else NaN.

Definition env_neg (v : string) : option string :=
  if String.eqb v "RATE_LIMIT_REQUESTS_PER_HOUR" then Some "-5" else None.

Lemma chat_env_override_kept_witness :
  res_allowed (checkLimit (chat_rateLimiter toNumber_neg env_neg) ∅ "A" 0) = false.
Proof.
  refine (proj1 (proj2 (chat_env_override_kept toNumber_neg env_neg Hour "-5"
    eq_refl _ _)) (inject_Z (-5)) ∅ "A" 0 eq_refl _).
  - vm_compute. discriminate.
  - intros q Hq. vm_compute in Hq. injection Hq as <-. vm_compute. discriminate.
  - vm_compute. reflexivity.
Defined.

(** ** The chat-proxy request handler (chat.ts, lines 14-96)

    The handler is modelled up to its I/O: the outcome of reading the body
    and logging it (lines 28-36) and the outcome of the upstream [fetch]
    (lines 47-69) are inputs. Every error thrown in the [try] block is a
    [SyntaxError], [TypeError] or [Error] without a [status] property, so
    the [catch] block answers with [error.status || 500] = 500. *)

(** Lines 28-36: [await req.json()] throws on a body that is not JSON;
    [messages.length] throws when the body has no [messages]. *)
Inductive body_outcome := BodyThrows | BodyOk.

(** Lines 47-69: [fetch] may throw (network error) or reply; a reply that
    is not [ok] makes the handler throw an [Error]. *)
Inductive upstream := FetchThrows | Reply (ok : bool).

(** The three bodies the handler can answer with. *)
Inductive resp_body :=
  | RateLimitError   (* {"error": "Rate limit exceeded"}, lines 20-25 *)
  | ErrorEnvelope    (* {error, details, type} of the catch block, lines 85-94 *)
  | Passthrough.     (* the upstream event stream, lines 71-77 *)

Record response := mkResponse {
  status : Z;
  content_type : string;
  rbody : resp_body
}.

(** Side effects past the limiter, in order. *)
Inductive effect := ReadBody | Fetch.

(** Line 16: [req.headers.get('x-forwarded-for') || 'anonymous']; a missing
    header is [null] and the empty string is falsy. *)
Definition client_key (xff : option string) : string :=
  match xff with
  | Some s => if String.eqb s "" then "anonymous" else s
  | None => "anonymous"
  end.

Definition error_response : response :=
  mkResponse 500 "application/json" ErrorEnvelope.

Definition handler (cfg : RateLimitConfig) (st : store) (now : Z)
    (xff : option string) (body : body_outcome) (up : upstream)
    : response * store * list effect :=
  let r := checkLimit cfg st (client_key xff) now in
  if negb (res_allowed r) then
    (mkResponse 429 "application/json" RateLimitError, res_store r, [])
  else
    match body with
    | BodyThrows => (error_response, res_store r, [ReadBody])
    | BodyOk =>
        match up with
        | FetchThrows | Reply false => (error_response, res_store r, [ReadBody; Fetch])
        | Reply true =>
            (mkResponse 200 "text/event-stream" Passthrough, res_store r, [ReadBody; Fetch])
        end
    end.

(** A rejected request is answered 429 with the JSON rate-limit body; the
    handler neither reads the body nor calls the upstream API, and the
    limiter store is unchanged. *)
Theorem handler_reject_no_upstream cfg (st : store) (now : Z) (xff : option string)
    (body : body_outcome) (up : upstream) :
  res_allowed (checkLimit cfg st (client_key xff) now) = false ->
  handler cfg st now xff body up
    = (mkResponse 429 "application/json" RateLimitError, st, []).
Proof.
  intros Hrej. unfold handler. rewrite Hrej. simpl. by rewrite checkLimit_reject.
Qed.

Lemma handler_reject_no_upstream_witness :
  handler cfg_2_10_10 {[ "1.2.3.4" := [0; 0] ]} 10 (Some "1.2.3.4") BodyOk (Reply true)
  = (mkResponse 429 "application/json" RateLimitError, {[ "1.2.3.4" := [0; 0] ]}, []).
Proof. apply handler_reject_no_upstream. vm_compute. reflexivity. Defined.

(** An admitted request is counted before anything else happens: its
    timestamp stays recorded whatever follows. The answer is 200 with the
    upstream stream exactly when the body is readable and the upstream
    replies [ok]; otherwise it is the 500 JSON error envelope. *)
Theorem handler_admitted_counted cfg (st : store) (now : Z) (xff : option string)
    (body : body_outcome) (up : upstream) :
  res_allowed (checkLimit cfg st (client_key xff) now) = true ->
  let '(resp, st', _) := handler cfg st now xff body up in
  st' = <[client_key xff := prune now (default [] (st !! client_key xff)) ++ [now]]> st /\
  (resp = mkResponse 200 "text/event-stream" Passthrough /\ body = BodyOk /\ up = Reply true \/
   resp = error_response /\ ~ (body = BodyOk /\ up = Reply true)).
Proof.
  intros Hal. pose proof (checkLimit_admit cfg st (client_key xff) now Hal) as Hst.
  unfold handler. rewrite Hal. simpl.
  destruct body, up as [|[]]; (split; [done|]);
    [right; split; [done|intros [? ?]; discriminate]..|left; done|right; split; [done|]];
    intros [_ ?]; discriminate.
Qed.

Lemma handler_admitted_counted_witness :
  let '(resp, st', _) :=
    handler cfg_2_10_10 ∅ 10 (Some "1.2.3.4") BodyOk (Reply false) in
  st' = <[client_key (Some "1.2.3.4") :=
            prune 10 (default [] ((∅ : store) !! client_key (Some "1.2.3.4"))) ++ [10]]> ∅ /\
  (resp = mkResponse 200 "text/event-stream" Passthrough /\ BodyOk = BodyOk /\
     Reply false = Reply true \/
   resp = error_response /\ ~ (BodyOk = BodyOk /\ Reply false = Reply true)).
Proof. apply handler_admitted_counted. vm_compute. reflexivity. Defined.

(** Requests without an x-forwarded-for header, with an empty one, and
    with the literal header "anonymous" are handled as the same client:
    they share one quota. *)
Theorem handler_anonymous_bucket cfg (st : store) (now : Z)
    (body : body_outcome) (up : upstream) :
  handler cfg st now None body up = handler cfg st now (Some "") body up /\
  handler cfg st now None body up = handler cfg st now (Some "anonymous") body up.
Proof. split; reflexivity. Qed.

(** A run of handler calls over one limiter instance. *)
Fixpoint handle_all (cfg : RateLimitConfig) (st : store)
    (reqs : list (Z * option string * body_outcome * upstream)) : list response * store :=
  match reqs with
  | [] => ([], st)
  | (now, xff, b, u) :: rest =>
      let '(resp, st', _) := handler cfg st now xff b u in
      let '(resps, st'') := handle_all cfg st' rest in
      (resp :: resps, st'')
  end.

Definition limiter_calls (reqs : list (Z * option string * body_outcome * upstream))
    : list (string * Z) :=
  map (fun r => (client_key r.1.1.2, r.1.1.1)) reqs.

Lemma handler_store cfg (st : store) now xff b u :
  (handler cfg st now xff b u).1.2 = res_store (checkLimit cfg st (client_key xff) now) /\
  bool_decide (status (handler cfg st now xff b u).1.1 = 429)
    = negb (res_allowed (checkLimit cfg st (client_key xff) now)).
Proof.
  unfold handler. destruct (res_allowed _); simpl; [|done].
  destruct b, u as [|[]]; done.
Qed.

(** Over any sequence of requests, the limiter state evolves exactly as
    the bare [checkLimit] run on (client key, instant): whether the body
    is readable or the upstream call succeeds never matters, so failed
    upstream calls consume quota like successful ones. A response is 429
    exactly when that run rejects the call. *)
Theorem handle_all_is_limiter_run cfg (st : store)
    (reqs : list (Z * option string * body_outcome * upstream)) :
  (handle_all cfg st reqs).2 = (run cfg st (limiter_calls reqs)).2 /\
  map (fun resp => bool_decide (status resp = 429)) (handle_all cfg st reqs).1
    = map negb (decisions cfg st (limiter_calls reqs)).
Proof.
  unfold decisions. revert st.
  induction reqs as [|[[[now xff] b] u] rest IH]; intros st; [done|].
  simpl limiter_calls. rewrite run_cons_log, run_cons_store.
  pose proof (handler_store cfg st now xff b u) as [Hs H429].
  simpl. destruct (handler cfg st now xff b u) as [[resp st'] eff] eqn:E.
  simpl in Hs, H429. subst st'.
  destruct (handle_all cfg _ rest) as [resps st''] eqn:E2.
  specialize (IH (res_store (checkLimit cfg st (client_key xff) now))).
  rewrite E2 in IH. destruct IH as [IH1 IH2]. simpl in *.
  split; [done|]. by rewrite H429, IH2.
Qed.

(** ** Streaming updates of the explore view (rateLimiter.ts, lines 91-187,
       the [ExploreView] component bundled in the same file) *)









